(** * rss-bot: the feed-processing pipeline of [rss_bot.py]

    A shallow embedding of [src/rss_bot/rss_bot.py]: the date normalizer
    ([published_date]), the feed fetcher ([get_articles]), the outline walker
    ([process_outline]), the report builder and entry point ([main]) and the
    mailer ([SmtpMailer.send_email]).

    Python values are modelled as the code uses them: strings as [string],
    dicts as [gmap string _], [None] as [option], exceptions as an error
    result.  The network (feedparser, SMTP) is an oracle held in a [world]
    record, and every call that reaches it is recorded in a trace. *)

From Stdlib Require Import ZArith DecimalString.
From stdpp Require Import gmap strings list fin_maps.

Set Warnings "-register-all".

Open Scope Z_scope.

(** ** Python values, exceptions, results *)

(** [time.struct_time], the type of feedparser's [*_parsed] fields. *)
Record struct_time := {
  tm_year : Z; tm_mon : Z; tm_mday : Z;
  tm_hour : Z; tm_min : Z; tm_sec : Z;
  tm_wday : Z; tm_yday : Z; tm_isdst : Z
}.

(** A [datetime]: the proleptic Gregorian ordinal of its calendar date (what
    [.date().toordinal()] returns) and the second within that day. *)
Record datetime := { dt_ordinal : Z; dt_second : Z }.

(** [dt.date()] *)
Definition date (dt : datetime) : Z := dt_ordinal dt.

(** The values found in a feed entry: strings and structured times. *)
Inductive value :=
| VStr (s : string)
| VTime (t : struct_time).

Inductive exn :=
| KeyError (key : string)
| AttributeError (msg : string)
| TypeError (msg : string)
| ValueError (msg : string)
| AssertionError (msg : string)
| LibraryError (name : string).   (* raised inside feedparser or smtplib *)

Inductive result (A : Type) :=
| Return (a : A)
| Raise (e : exn).
Arguments Return {A} a.
Arguments Raise {A} e.

Definition rbind {A B} (r : result A) (k : A -> result B) : result B :=
  match r with
  | Return a => k a
  | Raise e => Raise e
  end.

#[global] Instance result_bind : MBind result := fun A B k r => rbind r k.
#[global] Instance result_ret : MRet result := fun A a => Return a.

#[global] Instance exn_eq_dec : EqDecision exn.
Proof. solve_decision. Defined.

#[global] Instance result_eq_dec {A} `{EqDecision A} : EqDecision (result A).
Proof. solve_decision. Defined.

(** ** String formatting *)

Definition str_of_Z (z : Z) : string := NilZero.string_of_int (Z.to_int z).

(** [repr] of a [time.struct_time]. *)
Definition repr_struct_time (t : struct_time) : string :=
  "time.struct_time(tm_year=" +:+ str_of_Z (tm_year t) +:+
  ", tm_mon=" +:+ str_of_Z (tm_mon t) +:+
  ", tm_mday=" +:+ str_of_Z (tm_mday t) +:+
  ", tm_hour=" +:+ str_of_Z (tm_hour t) +:+
  ", tm_min=" +:+ str_of_Z (tm_min t) +:+
  ", tm_sec=" +:+ str_of_Z (tm_sec t) +:+
  ", tm_wday=" +:+ str_of_Z (tm_wday t) +:+
  ", tm_yday=" +:+ str_of_Z (tm_yday t) +:+
  ", tm_isdst=" +:+ str_of_Z (tm_isdst t) +:+ ")".

(** What an f-string replacement field [{v}] renders: a [str] verbatim. *)
Definition format_value (v : value) : string :=
  match v with
  | VStr s => s
  | VTime t => repr_struct_time t
  end.

(** [{x}] for the result of [attrib.get(...)]: the string, or [None]. *)
Definition format_opt (o : option string) : string :=
  match o with
  | Some s => s
  | None => "None"
  end.

(** ** The feed-list document and the feeds *)

(** An [xml.etree.ElementTree.Element]. *)
Inductive element :=
| Element (tag : string) (attrib : gmap string string) (children : list element).

Definition tag (e : element) : string :=
  match e with Element t _ _ => t end.
Definition attrib (e : element) : gmap string string :=
  match e with Element _ a _ => a end.
Definition children (e : element) : list element :=
  match e with Element _ _ cs => cs end.

(** All elements strictly below [e], in document order. *)
Fixpoint descendants (e : element) : list element :=
  match e with
  | Element _ _ cs =>
      (fix go (l : list element) : list element :=
         match l with
         | [] => []
         | c :: l' => c :: descendants c ++ go l'
         end) cs
  end.

(** [tree.findall(".//outline")] *)
Definition findall_outline (tree : element) : list element :=
  filter (fun e => tag e = "outline") (descendants tree).

(** A feed entry is a dict. *)
Abbreviation entry := (gmap string value).

(** What [feedparser.parse] returns, as far as the code reads it:
    [feed.get("status")] and [feed["entries"]]. *)
Record feed := { status : option Z; entries : list entry }.

(** [d[k]] on a dict. *)
Definition getitem {V} (d : gmap string V) (k : string) : result V :=
  match d !! k with
  | Some v => Return v
  | None => Raise (KeyError k)
  end.

(** ** The mailer's data *)

Record message := {
  msg_subject : option string;
  msg_from : option string;
  msg_to : option string;
  msg_content : string;
  msg_subtype : string
}.

Inductive details :=
| Text (s : string)
| Exc (e : exn).

Record response := { status_code : Z; response_details : details }.

(** The outcome of each call on the SMTP session; [None] is success. *)
Record smtp_outcome := {
  smtp_connect : option exn;     (* smtplib.SMTP(server, port) *)
  smtp_starttls : option exn;
  smtp_login : option exn;
  smtp_sendmail : option exn;
  smtp_quit : option exn         (* leaving the [with] block *)
}.

(** ** The world outside the program *)

Record world := {
  (* date.today(), as an ordinal; one run stays within one calendar day *)
  today : Z;
  (* dateutil's parser on a string; [None] when it raises *)
  parse_str : string -> option datetime;
  (* feedparser.parse(url) *)
  feedparser_parse : option string -> result feed;
  (* what load_feeds() returned: the parsed feed list, or [None] after a
     ClientError.  The S3 request itself is not part of the trace, and a run
     in which load_feeds() raises (another boto error, a ParseError from
     et.fromstring) is outside this model. *)
  load_feeds : option element;
  smtp : smtp_outcome;
  FROM_EMAIL : option string;
  TO_EMAIL : option string
}.

(** ** Effects: a trace of network calls, and exceptions *)

Inductive event :=
| Fetch (url : option string)
| Sendmail (m : message).

Definition trace := list event.

Definition M (A : Type) : Type := trace -> result A * trace.

Definition ret {A} (a : A) : M A := fun tr => (Return a, tr).
Definition raise {A} (e : exn) : M A := fun tr => (Raise e, tr).
Definition bind {A B} (m : M A) (k : A -> M B) : M B :=
  fun tr =>
    match m tr with
    | (Return a, tr') => k a tr'
    | (Raise e, tr') => (Raise e, tr')
    end.
(** [try: m except Exception as e: ...], with the outcome reified. *)
Definition attempt {A} (m : M A) : M (result A) :=
  fun tr => let '(r, tr') := m tr in (Return r, tr').
Definition lift {A} (r : result A) : M A := fun tr => (r, tr).
Definition emit (ev : event) : M unit := fun tr => (Return tt, tr ++ [ev]).


#[global] Instance M_bind : MBind M := fun A B k m => bind m k.
#[global] Instance M_ret : MRet M := fun A a => ret a.

Section Program.

Context (W : world).

(** ** [published_date] *)

Definition date_keys : list string :=
  ["published_parsed"; "updated_parsed"; "pubDate"; "updated"; "published"].

(** [parser.parse(v)]: dateutil's parser reads a string or a character
    stream; any other object raises [TypeError]. *)
Definition parser_parse (v : value) : result datetime :=
  match v with
  | VStr s =>
      match parse_str W s with
      | Some dt => Return dt
      | None => Raise (ValueError "Unknown string format")
      end
  | VTime _ =>
      Raise (TypeError "Parser must be a string or character stream, not struct_time")
  end.

(** The body of the [try] for one key. *)
Definition try_date_key (e : entry) (k : string) : result datetime :=
  pub_date ← getitem e k;
  parser_parse pub_date.

Fixpoint published_date_from (keys : list string) (e : entry) : option datetime :=
  match keys with
  | [] => None
  | k :: keys' =>
      match try_date_key e k with
      | Return dt => Some dt
      | Raise _ => published_date_from keys' e     (* except Exception: continue *)
      end
  end.

Definition published_date (e : entry) : option datetime :=
  published_date_from date_keys e.

(** ** [get_articles] *)

Definition yesterday : Z := today W - 1.

Definition li (article_url title : value) : string :=
  "<li><a href='" +:+ format_value article_url +:+ "'>" +:+
  format_value title +:+ "</a></li>".

(** The [for entry in entries] loop, with its two accumulators. *)
Fixpoint articles_loop (es : list entry) (articles : string) (articles_count : nat)
  : result (string * nat) :=
  match es with
  | [] => Return (articles, articles_count)
  | e :: es' =>
      title ← getitem e "title";
      article_url ← getitem e "link";
      match published_date e with
      | None => Raise (AttributeError "'NoneType' object has no attribute 'date'")
      | Some pub_date =>
          if decide (date pub_date = yesterday)
          then articles_loop es' (articles +:+ li article_url title) (S articles_count)
          else articles_loop es' articles articles_count
      end
  end.

Definition fetch (feed_url : option string) : M feed :=
  _ ← emit (Fetch feed_url);
  lift (feedparser_parse W feed_url).

(** The [timer] decorator returns what the function returns and lets its
    exceptions through; it only prints. *)
Definition timer {A B} (func : A -> M B) : A -> M B := func.

Definition get_articles : option string -> M (option string) :=
  timer (fun feed_url =>
    let articles := "<ul>" in
    r ← attempt (fetch feed_url);
    match r with
    | Raise _ => ret None
    | Return feed =>
        if decide (status feed = Some 404) then ret (Some "Not Found")
        else
          '(articles, articles_count) ← lift (articles_loop (entries feed) articles 0);
          let articles := articles +:+ "</ul>" in
          if decide (0 < articles_count)%nat then ret (Some articles) else ret None
    end).

(** ** [process_outline] *)

Definition process_outline (outline : element) : M (option string) :=
  let outline_type := attrib outline !! "type" in
  let title := attrib outline !! "title" in
  let url := attrib outline !! "xmlUrl" in
  if decide (outline_type = Some "folder")
  then ret (Some ("<hr><h1>" +:+ format_opt title +:+ "</h1>"))
  else
    let blog := "<h2>" +:+ format_opt title +:+ "</h2>" in
    articles ← get_articles url;
    if decide (articles = Some "Not found") then ret (Some "Not Found")
    else
      match articles with
      | Some a => ret (Some (blog +:+ a))
      | None => ret None
      end.

(** ** [SmtpMailer] *)

Definition set_message (from_email to_email subject : option string)
    (content type : string) : message :=
  {| msg_subject := subject; msg_from := from_email; msg_to := to_email;
     msg_content := content; msg_subtype := type |}.

(** One call on the SMTP session. *)
Definition smtp_call (outcome : option exn) : M unit :=
  match outcome with
  | None => ret tt
  | Some e => raise e
  end.

Definition send_email (from_email to_email subject : option string)
    (content type : string) : M response :=
  let message := set_message from_email to_email subject content type in
  (* with smtplib.SMTP(self.smtp_server, self.smtp_port) as server: *)
  _ ← smtp_call (smtp_connect (smtp W));
  r ← attempt (
    _ ← smtp_call (smtp_starttls (smtp W));
    _ ← smtp_call (smtp_login (smtp W));
    _ ← smtp_call (smtp_sendmail (smtp W));
    emit (Sendmail message));
  let response :=
    match r with
    | Return _ => {| status_code := 201; response_details := Text "email sent" |}
    | Raise e => {| status_code := 400; response_details := Exc e |}
    end in
  _ ← smtp_call (smtp_quit (smtp W));
  ret response.

(** ** [main] *)

Definition errors_header : string := "<hr><h1>Errors</h1>".

Definition error_entry (outline : element) : string :=
  let title := attrib outline !! "title" in
  let url := attrib outline !! "xmlUrl" in
  "<a src='" +:+ format_opt url +:+ "'>" +:+ format_opt title +:+ "</a>".

(** The [for outline in nodes] loop, with its two accumulators. *)
Fixpoint main_loop (nodes : list element) (report errors : string)
  : M (string * string) :=
  match nodes with
  | [] => ret (report, errors)
  | outline :: nodes' =>
      blog_articles ← process_outline outline;
      if decide (blog_articles = Some "Not found")
      then main_loop nodes' report (errors +:+ error_entry outline)
      else
        match blog_articles with
        | Some b => main_loop nodes' (report +:+ b) errors
        | None => main_loop nodes' report errors
        end
  end.

(** Lines 211-231: the report handed to the mailer. *)
Definition build_report (tree : element) : M string :=
  let nodes := findall_outline tree in
  '(report, errors) ← main_loop nodes "" errors_header;
  ret (report +:+ errors).

Definition main : M unit :=
  match load_feeds W with
  | None => raise (AssertionError "Failed to load the RSS feeds.")
  | Some tree =>
      report ← build_report tree;
      let subject := "Today's new articles and videos." in
      _ ← send_email (FROM_EMAIL W) (TO_EMAIL W) (Some subject) report "html";
      ret tt
  end.

End Program.

(** ** [lambda_handler] *)

(** The serverless entry point runs [main] and reads neither argument. *)
Definition lambda_handler {E C : Type} (W : world) (event : E) (context : C)
  : M unit := main W.

(** ** Notions used to state the properties *)

(** The keys of [date_keys] that hold raw strings. *)
Definition raw_date_keys : list string := ["pubDate"; "updated"; "published"].

(** The number of elements of a tree. *)
Fixpoint element_size (e : element) : nat :=
  match e with
  | Element _ _ cs =>
      S ((fix go (l : list element) : nat :=
            match l with
            | [] => O
            | c :: l' => (element_size c + go l')%nat
            end) cs)
  end.

(** The message [main] hands to the mailer for a report. *)
Definition report_message (W : world) (report : string) : message :=
  {| msg_subject := Some "Today's new articles and videos.";
     msg_from := FROM_EMAIL W; msg_to := TO_EMAIL W;
     msg_content := report; msg_subtype := "html" |}.

(** The value a computation produces from the empty trace. *)
Definition value_of {A} (m : M A) : result A := fst (m []).

(** The calls to feedparser that processing one outline node makes. *)
Definition fetches_of (outline : element) : trace :=
  if decide (attrib outline !! "type" = Some "folder") then []
  else [Fetch (attrib outline !! "xmlUrl")].

(** [o] lies strictly below [t] in the document, at any depth. *)
Inductive below (o : element) : element -> Prop :=
| below_child t : In o (children t) -> below o t
| below_deeper t c : In c (children t) -> below o c -> below o t.

Definition concat_str (l : list string) : string := foldr String.append "" l.

(** An article list item: the title, link and date read from an entry. *)
Record item := { item_title : string; item_link : string; item_date : datetime }.

Definition entry_item (W : world) (e : entry) (i : item) : Prop :=
  e !! "title" = Some (VStr (item_title i)) ∧
  e !! "link" = Some (VStr (item_link i)) ∧
  published_date W e = Some (item_date i).

Definition render_item (i : item) : string :=
  "<li><a href='" +:+ item_link i +:+ "'>" +:+ item_title i +:+ "</a></li>".

Definition kept_items (W : world) (items : list item) : list item :=
  filter (fun i => date (item_date i) = yesterday W) items.

(** An entry the loop of [get_articles] gets past. *)
Definition entry_passes (W : world) (e : entry) : Prop :=
  is_Some (e !! "title") ∧ is_Some (e !! "link") ∧ is_Some (published_date W e).

(** The key whose lookup fails first on an entry without title or link. *)
Definition missing_key (e : entry) : string :=
  match e !! "title" with
  | None => "title"
  | Some _ => "link"
  end.

(** The first failure among the calls made inside the mailer's [try]. *)
Definition session_failure (s : smtp_outcome) : option exn :=
  match smtp_starttls s with
  | Some e => Some e
  | None =>
      match smtp_login s with
      | Some e => Some e
      | None => smtp_sendmail s
      end
  end.

(** What one node adds to the report body, and whether [main] records it in
    the error section. *)
Definition recorded_as_error (W : world) (outline : element) : Prop :=
  value_of (process_outline W outline) = Return (Some "Not found").

#[global] Instance recorded_as_error_dec W outline :
  Decision (recorded_as_error W outline).
Proof. unfold recorded_as_error. apply _. Defined.

Definition body_fragment (W : world) (outline : element) : string :=
  match value_of (process_outline W outline) with
  | Return (Some b) => if decide (b = "Not found") then "" else b
  | _ => ""
  end.

Definition report_body (W : world) (nodes : list element) : string :=
  concat_str (map (body_fragment W) nodes).

Definition error_entries (W : world) (nodes : list element) : string :=
  concat_str (map error_entry (filter (recorded_as_error W) nodes)).

(** The fetch of a feed source failed: feedparser raised, or answered 404. *)
Definition fetch_failed (W : world) (outline : element) : Prop :=
  attrib outline !! "type" ≠ Some "folder" ∧
  match feedparser_parse W (attrib outline !! "xmlUrl") with
  | Raise _ => True
  | Return f => status f = Some 404
  end.

(** Two worlds show the same feeds to a run over [nodes]. *)
Definition same_feeds (W1 W2 : world) (nodes : list element) : Prop :=
  today W1 = today W2 ∧
  (∀ s, parse_str W1 s = parse_str W2 s) ∧
  Forall (fun o => attrib o !! "type" ≠ Some "folder" →
            feedparser_parse W1 (attrib o !! "xmlUrl") =
            feedparser_parse W2 (attrib o !! "xmlUrl")) nodes.

(** ** Concrete inputs *)

Module Ex.

Definition outline (attrs : gmap string string) (cs : list element) : element :=
  Element "outline" attrs cs.

Definition feed_node (title url : string) : element :=
  outline {[ "type" := "rss"; "title" := title; "xmlUrl" := url ]} [].

Definition folder (title : string) (cs : list element) : element :=
  outline {[ "title" := title; "type" := "folder" ]} cs.

Definition opml (cs : list element) : element :=
  Element "opml" ∅ [Element "body" ∅ cs].

(** The run takes place on 2024-01-03 (ordinal 738888). *)
Definition jan1 : string := "Mon, 01 Jan 2024 10:00:00 GMT".
Definition jan2 : string := "Tue, 02 Jan 2024 10:00:00 GMT".

(** A string parser that reads exactly these two texts. *)
Definition parse (s : string) : option datetime :=
  if decide (s = jan2) then Some {| dt_ordinal := 738887; dt_second := 36000 |}
  else if decide (s = jan1) then Some {| dt_ordinal := 738886; dt_second := 36000 |}
  else None.

Definition smtp_ok : smtp_outcome :=
  {| smtp_connect := None; smtp_starttls := None; smtp_login := None;
     smtp_sendmail := None; smtp_quit := None |}.

Definition mk_world (fp : option string -> result feed) (tree : element) : world :=
  {| today := 738888; parse_str := parse; feedparser_parse := fp;
     load_feeds := Some tree; smtp := smtp_ok;
     FROM_EMAIL := Some "bot@example.org"; TO_EMAIL := Some "me@example.org" |}.

Definition post (title link when : string) : entry :=
  {[ "title" := VStr title; "link" := VStr link; "published" := VStr when ]}.

(** The end-to-end example of the specification: folder Tech, source BlogX. *)
Definition blogx_feed : feed :=
  {| status := Some 200;
     entries := [ post "Post A" "https://x.example/a" jan2;
                  post "Post B" "https://x.example/b" jan1 ] |}.

Definition tech_tree : element :=
  opml [folder "Tech" [feed_node "BlogX" "https://x.example/rss"]].

Definition tech_feeds (url : option string) : result feed :=
  if decide (url = Some "https://x.example/rss") then Return blogx_feed
  else Raise (LibraryError "URLError").

(** A folder two levels down, holding a node without any attribute. *)
Definition bare_node : element := outline ∅ [].

Definition blogs_folder : element := folder "Blogs" [bare_node].

Definition nested_tree : element := opml [folder "Tech" [blogs_folder]].

(** One source, and a feedparser that answers every URL with one feed. *)
Definition rss : string := "https://x.example/rss".

Definition one_source_tree : element := opml [feed_node "BlogX" rss].

Definition serve (f : feed) : option string -> result feed := fun _ => Return f.

Definition world_of (f : feed) : world := mk_world (serve f) one_source_tree.

(** Markup and quotes in a title and a link. *)
Definition markup_item : item :=
  {| item_title := "<b>Post</b> & 'co'";
     item_link := "https://x.example/a?x='1'&y=<2>";
     item_date := {| dt_ordinal := 738887; dt_second := 36000 |} |}.

Definition markup_feed : feed :=
  {| status := Some 200;
     entries := [ post (item_title markup_item) (item_link markup_item) jan2 ] |}.

(** An entry without a title, followed by a well-formed one. *)
Definition untitled : entry :=
  {[ "link" := VStr "https://x.example/u"; "published" := VStr jan2 ]}.

Definition untitled_feed : feed :=
  {| status := Some 200;
     entries := [ untitled; post "Post A" "https://x.example/a" jan2 ] |}.

Definition titled_feed : feed :=
  {| status := Some 200;
     entries := [ post "Post A" "https://x.example/a" jan2 ] |}.

(** A structured time for 2024-01-01 next to a pubDate string for 2024-01-02. *)
Definition jan1_struct : struct_time :=
  {| tm_year := 2024; tm_mon := 1; tm_mday := 1; tm_hour := 10; tm_min := 0;
     tm_sec := 0; tm_wday := 0; tm_yday := 1; tm_isdst := 0 |}.

Definition both_dates : entry :=
  {[ "title" := VStr "Post"; "link" := VStr "https://x.example/p";
     "published_parsed" := VTime jan1_struct; "pubDate" := VStr jan2 ]}.

(** An entry with title and link and no date field that parses. *)
Definition undated : entry :=
  {[ "title" := VStr "Post U"; "link" := VStr "https://x.example/u";
     "published" := VStr "sometime" ]}.

Definition undated_feed : feed :=
  {| status := Some 200;
     entries := [ undated; post "Post A" "https://x.example/a" jan2 ] |}.

(** A source that answers 404, and a feedparser that raises. *)
Definition notfound_feed : feed := {| status := Some 404; entries := [] |}.

Definition down (url : option string) : result feed :=
  Raise (LibraryError "URLError").

(** An SMTP server that refuses the connection. *)
Definition smtp_refused : smtp_outcome :=
  {| smtp_connect := Some (LibraryError "ConnectionRefusedError");
     smtp_starttls := None; smtp_login := None; smtp_sendmail := None;
     smtp_quit := None |}.

Definition refused_world : world :=
  {| today := 738888; parse_str := parse; feedparser_parse := tech_feeds;
     load_feeds := Some tech_tree; smtp := smtp_refused;
     FROM_EMAIL := Some "bot@example.org"; TO_EMAIL := Some "me@example.org" |}.



(** A second world for the same document: the feed of BlogX is the same,
    every other URL answers differently, and the mail server is down. *)
Definition other_feeds (url : option string) : result feed :=
  if decide (url = Some "https://x.example/rss") then Return blogx_feed
  else Return notfound_feed.

Definition other_world : world :=
  {| today := 738888; parse_str := parse; feedparser_parse := other_feeds;
     load_feeds := None; smtp := smtp_refused;
     FROM_EMAIL := None; TO_EMAIL := None |}.

(** An entry with a pubDate of 2024-01-02 and a published text of 2024-01-01. *)
Definition two_raw_dates : entry :=
  {[ "title" := VStr "Post"; "link" := VStr "https://x.example/p";
     "pubDate" := VStr jan2; "published" := VStr jan1 ]}.

(** A feed whose only entry is two days old. *)
Definition old_feed : feed :=
  {| status := Some 200;
     entries := [ post "Post B" "https://x.example/b" jan1 ] |}.

Definition old_item : item :=
  {| item_title := "Post B"; item_link := "https://x.example/b";
     item_date := {| dt_ordinal := 738886; dt_second := 36000 |} |}.

(** Two sources: the feed of the first holds an undated entry. *)
Definition urss : string := "https://u.example/rss".

Definition two_sources_tree : element :=
  opml [feed_node "BlogU" urss; feed_node "BlogX" rss].

Definition two_feeds (url : option string) : result feed :=
  if decide (url = Some urss) then Return undated_feed
  else if decide (url = Some rss) then Return blogx_feed
  else Raise (LibraryError "URLError").

End Ex.

(** * Properties *)

(** ** Strings *)

Lemma append_nil_r (s : string) : s +:+ "" = s.
Proof. induction s as [|a s IH]; [reflexivity|]. change (String a (s +:+ "") = String a s). by rewrite IH. Qed.

Lemma append_assoc (s t u : string) : (s +:+ t) +:+ u = s +:+ t +:+ u.
Proof.
  induction s as [|a s IH]; [reflexivity|].
  change (String a ((s +:+ t) +:+ u) = String a (s +:+ t +:+ u)). by rewrite IH.
Qed.

(** ** How the operations run: value and trace *)

Section Runs.

Context (W : world).

Lemma fetch_run url tr :
  fetch W url tr = (feedparser_parse W url, tr ++ [Fetch url]).
Proof. reflexivity. Qed.

(** [get_articles] calls feedparser exactly once, whatever comes back. *)
Lemma get_articles_run url tr :
  get_articles W url tr = (value_of (get_articles W url), tr ++ [Fetch url]).
Proof.
  unfold value_of, get_articles, timer, mbind, M_bind, bind, attempt.
  rewrite !fetch_run. destruct (feedparser_parse W url) as [f|e]; [|reflexivity].
  destruct (decide (status f = Some 404)) as [H404|H404]; [reflexivity|].
  unfold lift. destruct (articles_loop W (entries f) "<ul>" 0) as [[a k]|e]; [|reflexivity].
  destruct (decide (0 < k)%nat); reflexivity.
Qed.

Lemma process_outline_run outline tr :
  process_outline W outline tr =
    (value_of (process_outline W outline), tr ++ fetches_of outline).
Proof.
  unfold value_of, process_outline, fetches_of.
  destruct (decide (attrib outline !! "type" = Some "folder")) as [Hty|Hty].
  { unfold ret. by rewrite app_nil_r. }
  unfold mbind, M_bind, bind. rewrite (get_articles_run _ tr), (get_articles_run _ []).
  destruct (value_of (get_articles W (attrib outline !! "xmlUrl"))) as [a|e]; [|reflexivity].
  destruct (decide (a = Some "Not found")) as [Hs|Hs]; [reflexivity|].
  destruct a; reflexivity.
Qed.

End Runs.

(** ** The outline walker *)

Lemma descendants_unfold t c cs a :
  descendants (Element t a (c :: cs)) =
    c :: descendants c ++ descendants (Element t a cs).
Proof. reflexivity. Qed.

Lemma In_descendants_child c t : In c (children t) -> In c (descendants t).
Proof.
  destruct t as [t a cs]. simpl children. induction cs as [|c' cs IH]; intros Hin.
  - destruct Hin.
  - rewrite descendants_unfold. destruct Hin as [->|Hin]; [by left|].
    right. apply in_or_app. right. by apply IH.
Qed.

Lemma In_descendants_deeper o c t :
  In c (children t) -> In o (descendants c) -> In o (descendants t).
Proof.
  destruct t as [t a cs]. simpl children. induction cs as [|c' cs IH]; intros Hin Ho.
  - destruct Hin.
  - rewrite descendants_unfold. right. apply in_or_app.
    destruct Hin as [->|Hin]; [by left|]. right. by apply IH.
Qed.

Lemma below_descendants o t : below o t -> In o (descendants t).
Proof.
  induction 1 as [t Hin|t c Hin _ IH].
  - by apply In_descendants_child.
  - by apply (In_descendants_deeper o c).
Qed.

(** [findall] reaches every outline element, whatever its depth. *)
Lemma findall_outline_complete o t :
  below o t -> tag o = "outline" -> In o (findall_outline t).
Proof.
  intros Hb Ht. apply list_elem_of_In, list_elem_of_filter.
  split; [done|]. by apply list_elem_of_In, below_descendants.
Qed.

Lemma append_cons a (s t : string) : String a s +:+ t = String a (s +:+ t).
Proof. reflexivity. Qed.

(** The loop only ever appends to the accumulator it is given. *)
Lemma articles_loop_extends W es acc n a k :
  articles_loop W es acc n = Return (a, k) -> ∃ suffix, a = acc +:+ suffix.
Proof.
  revert acc n. induction es as [|e es IH]; intros acc n Hrun; simpl in Hrun.
  - injection Hrun as <- <-. exists "". by rewrite append_nil_r.
  - unfold mbind, result_bind, rbind in Hrun.
    destruct (getitem e "title") as [title|]; [|discriminate].
    destruct (getitem e "link") as [link|]; [|discriminate].
    destruct (published_date W e) as [dt|]; [|discriminate].
    destruct (decide (date dt = yesterday W)) as [Hd|Hd].
    + apply IH in Hrun as [suffix ->]. exists (li link title +:+ suffix).
      apply append_assoc.
    + by apply IH in Hrun.
Qed.

(** [get_articles] never returns the string ["Not found"]. *)
Lemma get_articles_not_sentinel W url :
  value_of (get_articles W url) ≠ Return (Some "Not found").
Proof.
  unfold value_of, get_articles, timer, mbind, M_bind, bind, attempt.
  rewrite fetch_run. destruct (feedparser_parse W url) as [f|e]; [|discriminate].
  destruct (decide (status f = Some 404)) as [H404|H404]; [discriminate|].
  unfold lift. destruct (articles_loop W (entries f) "<ul>" 0) as [[a k]|e] eqn:Hloop;
    [|discriminate].
  apply articles_loop_extends in Hloop as [suffix ->].
  destruct (decide (0 < k)%nat); discriminate.
Qed.

Lemma process_outline_folder W outline tr :
  attrib outline !! "type" = Some "folder" ->
  process_outline W outline tr =
    (Return (Some ("<hr><h1>" +:+ format_opt (attrib outline !! "title") +:+ "</h1>")), tr).
Proof.
  intros Hty. unfold process_outline. by rewrite decide_True.
Qed.

(** The value of a feed-source node, read off the value of [get_articles]. *)
Lemma process_outline_source W outline :
  attrib outline !! "type" ≠ Some "folder" ->
  value_of (process_outline W outline) =
    match value_of (get_articles W (attrib outline !! "xmlUrl")) with
    | Return (Some a) =>
        Return (Some ("<h2>" +:+ format_opt (attrib outline !! "title") +:+ "</h2>" +:+ a))
    | Return None => Return None
    | Raise e => Raise e
    end.
Proof.
  intros Hty. unfold value_of at 1. unfold process_outline.
  rewrite decide_False by done. unfold mbind, M_bind, bind.
  rewrite get_articles_run.
  pose proof (get_articles_not_sentinel W (attrib outline !! "xmlUrl")) as Hns.
  destruct (value_of (get_articles W (attrib outline !! "xmlUrl"))) as [a|e]; [|reflexivity].
  destruct (decide (a = Some "Not found")) as [Hs|Hs]; [congruence|].
  destruct a; [|reflexivity].
  simpl. by rewrite !append_assoc.
Qed.

(** C7: an outline node of type "folder", at any position and depth of the
    feed-list document, is among the nodes [main] processes, and processing
    it leaves the trace unchanged (no feed is fetched) and returns exactly
    the header fragment "<hr><h1>" + title + "</h1>". *)
Theorem folder_emits_header_without_fetch W tree outline tr :
  below outline tree ->
  tag outline = "outline" ->
  attrib outline !! "type" = Some "folder" ->
  In outline (findall_outline tree) ∧
  process_outline W outline tr =
    (Return (Some ("<hr><h1>" +:+ format_opt (attrib outline !! "title") +:+ "</h1>")), tr).
Proof.
  intros Hbelow Htag Hty. split.
  - by apply findall_outline_complete.
  - by apply process_outline_folder.
Qed.

Lemma folder_emits_header_without_fetch_witness :
  In Ex.blogs_folder (findall_outline Ex.nested_tree) ∧
  process_outline (Ex.mk_world Ex.tech_feeds Ex.nested_tree) Ex.blogs_folder [] =
    (Return (Some "<hr><h1>Blogs</h1>"), []).
Proof.
  apply (folder_emits_header_without_fetch
           (Ex.mk_world Ex.tech_feeds Ex.nested_tree) Ex.nested_tree Ex.blogs_folder []).
  - apply below_deeper with (c := Element "body" ∅ [Ex.folder "Tech" [Ex.blogs_folder]]);
      [left; reflexivity|].
    apply below_deeper with (c := Ex.folder "Tech" [Ex.blogs_folder]); [left; reflexivity|].
    apply below_child. left. reflexivity.
  - reflexivity.
  - reflexivity.
Defined.

(** C9: an outline node whose type is anything but "folder" (also a node
    with no type and no xmlUrl attribute) is treated as a feed source: one
    fetch is made, with the value of [attrib.get("xmlUrl")] (possibly None)
    as its argument, and the node's result is built from what
    [get_articles] returns for it. *)
Theorem non_folder_is_fetched W outline tr :
  attrib outline !! "type" ≠ Some "folder" ->
  process_outline W outline tr =
    (value_of (process_outline W outline),
     tr ++ [Fetch (attrib outline !! "xmlUrl")]) ∧
  value_of (process_outline W outline) =
    match value_of (get_articles W (attrib outline !! "xmlUrl")) with
    | Return (Some a) =>
        Return (Some ("<h2>" +:+ format_opt (attrib outline !! "title") +:+ "</h2>" +:+ a))
    | Return None => Return None
    | Raise e => Raise e
    end.
Proof.
  intros Hty. split.
  - rewrite process_outline_run. unfold fetches_of. by rewrite decide_False.
  - by apply process_outline_source.
Qed.

Lemma non_folder_is_fetched_witness :
  snd (process_outline (Ex.mk_world Ex.tech_feeds Ex.nested_tree) Ex.bare_node []) =
    [Fetch None].
Proof.
  pose proof (non_folder_is_fetched
                (Ex.mk_world Ex.tech_feeds Ex.nested_tree) Ex.bare_node []) as H.
  destruct H as [Hrun _].
  - vm_compute. discriminate.
  - rewrite Hrun. reflexivity.
Defined.

(** ** The feed fetcher *)

Lemma getitem_Some {V} (d : gmap string V) k v : d !! k = Some v -> getitem d k = Return v.
Proof. intros H. unfold getitem. by rewrite H. Qed.

Lemma getitem_None {V} (d : gmap string V) k : d !! k = None -> getitem d k = Raise (KeyError k).
Proof. intros H. unfold getitem. by rewrite H. Qed.

(** On entries that all carry a string title, a string link and a date, the
    loop appends one [<li>] per entry dated yesterday, in entry order. *)
Lemma articles_loop_items W es items acc n :
  Forall2 (entry_item W) es items ->
  articles_loop W es acc n =
    Return (acc +:+ concat_str (map render_item (kept_items W items)),
            (n + length (kept_items W items))%nat).
Proof.
  intros Hitems. revert acc n.
  induction Hitems as [|e i es items (Ht & Hl & Hd) _ IH]; intros acc n.
  - simpl. by rewrite append_nil_r, Nat.add_0_r.
  - simpl. rewrite (getitem_Some _ _ _ Ht), (getitem_Some _ _ _ Hl), Hd.
    unfold mbind, result_bind, rbind, kept_items. fold (kept_items W items).
    destruct (decide (date (item_date i) = yesterday W)) as [Hy|Hy].
    + rewrite filter_cons_True by done. rewrite IH. simpl.
      rewrite append_assoc. f_equal. f_equal. unfold kept_items. lia.
    + rewrite filter_cons_False by done. apply IH.
Qed.

(** C10: when every entry of a feed carries a string title, a string link and
    a date, [get_articles] returns "<ul>", then for each entry dated yesterday
    the fragment "<li><a href='" + link + "'>" + title + "</a></li>" with link
    and title exactly as the feed gave them, then "</ul>": nothing is escaped. *)
Theorem kept_entries_rendered_verbatim W url f items tr :
  feedparser_parse W url = Return f ->
  status f ≠ Some 404 ->
  Forall2 (entry_item W) (entries f) items ->
  kept_items W items ≠ [] ->
  get_articles W url tr =
    (Return (Some ("<ul>" +:+
                   concat_str (map (fun i => "<li><a href='" +:+ item_link i +:+ "'>" +:+
                                             item_title i +:+ "</a></li>")
                                   (kept_items W items)) +:+
                   "</ul>")),
     tr ++ [Fetch url]).
Proof.
  intros Hfeed H404 Hitems Hkept. rewrite get_articles_run. f_equal.
  unfold value_of, get_articles, timer, mbind, M_bind, bind, attempt.
  rewrite fetch_run, Hfeed. rewrite decide_False by done.
  unfold lift. rewrite (articles_loop_items _ _ _ _ _ Hitems). simpl.
  destruct (kept_items W items) as [|i kept] eqn:Hk; [done|].
  rewrite decide_True by (simpl; lia). simpl. by rewrite append_assoc.
Qed.

Lemma kept_entries_rendered_verbatim_witness :
  get_articles (Ex.world_of Ex.markup_feed) (Some Ex.rss) [] =
    (Return (Some "<ul><li><a href='https://x.example/a?x='1'&y=<2>'><b>Post</b> & 'co'</a></li></ul>"),
     [Fetch (Some Ex.rss)]).
Proof.
  apply (kept_entries_rendered_verbatim
           (Ex.world_of Ex.markup_feed) (Some Ex.rss) Ex.markup_feed [Ex.markup_item] []).
  - reflexivity.
  - discriminate.
  - constructor; [|constructor]. repeat split; reflexivity.
  - discriminate.
Defined.

(** The loop stops with an exception at an entry without title or link. *)
Lemma articles_loop_raises W good e rest acc n :
  e !! "title" = None ∨ e !! "link" = None ->
  ∃ ex, articles_loop W (good ++ e :: rest) acc n = Raise ex.
Proof.
  intros Hlack. revert acc n. induction good as [|g good IH]; intros acc n; simpl.
  - unfold mbind, result_bind, rbind, getitem.
    destruct (e !! "title") as [t|]; [|by eexists].
    destruct Hlack as [?| ->]; [done|]. by eexists.
  - unfold mbind, result_bind, rbind.
    destruct (getitem g "title") as [t|ex]; [|by eexists].
    destruct (getitem g "link") as [l|ex]; [|by eexists].
    destruct (published_date W g) as [dt|]; [|by eexists].
    destruct (decide (date dt = yesterday W)); apply IH.
Qed.

Lemma articles_loop_key_error W good e rest acc n :
  Forall (entry_passes W) good ->
  e !! "title" = None ∨ e !! "link" = None ->
  articles_loop W (good ++ e :: rest) acc n = Raise (KeyError (missing_key e)).
Proof.
  intros Hgood Hlack. revert acc n.
  induction Hgood as [|g good ([t Ht] & [l Hl] & [dt Hd]) _ IH]; intros acc n; simpl.
  - unfold mbind, result_bind, rbind, getitem, missing_key.
    destruct (e !! "title") as [t|]; [|reflexivity].
    destruct Hlack as [?| ->]; [done|reflexivity].
  - rewrite (getitem_Some _ _ _ Ht), (getitem_Some _ _ _ Hl), Hd.
    unfold mbind, result_bind, rbind.
    destruct (decide (date dt = yesterday W)); apply IH.
Qed.

(** C4 (amended): in a feed that was fetched and did not answer 404, an
    entry that lacks a title or a link is not skipped.  [get_articles] raises
    on such a feed, so no list is rendered for it; when the entries before
    that entry have a title, a link and a date, the exception is the KeyError
    of the missing key. *)
Theorem malformed_entry_raises W url f good e rest tr :
  feedparser_parse W url = Return f ->
  status f ≠ Some 404 ->
  entries f = good ++ e :: rest ->
  e !! "title" = None ∨ e !! "link" = None ->
  (∃ ex, get_articles W url tr = (Raise ex, tr ++ [Fetch url])) ∧
  (Forall (entry_passes W) good ->
   get_articles W url tr = (Raise (KeyError (missing_key e)), tr ++ [Fetch url])).
Proof.
  intros Hfeed H404 Hes Hlack.
  assert (∀ ex, articles_loop W (entries f) "<ul>" 0 = Raise ex ->
                get_articles W url tr = (Raise ex, tr ++ [Fetch url])) as Hraise.
  { intros ex Hloop. rewrite get_articles_run. f_equal.
    unfold value_of, get_articles, timer, mbind, M_bind, bind, attempt.
    rewrite fetch_run, Hfeed. rewrite decide_False by done.
    unfold lift. by rewrite Hloop. }
  split.
  - destruct (articles_loop_raises W good e rest "<ul>" 0%nat Hlack) as [ex Hex].
    exists ex. apply Hraise. by rewrite Hes.
  - intros Hgood. apply Hraise. rewrite Hes. by apply articles_loop_key_error.
Qed.

Lemma malformed_entry_raises_witness :
  get_articles (Ex.world_of Ex.untitled_feed) (Some Ex.rss) [] =
    (Raise (KeyError "title"), [Fetch (Some Ex.rss)]).
Proof.
  apply (malformed_entry_raises
           (Ex.world_of Ex.untitled_feed) (Some Ex.rss) Ex.untitled_feed
           [] Ex.untitled [Ex.post "Post A" "https://x.example/a" Ex.jan2] []).
  - reflexivity.
  - discriminate.
  - reflexivity.
  - left. reflexivity.
  - constructor.
Defined.

(** C4 as stated fails: with an entry without title in the feed,
    [get_articles] raises KeyError instead of returning the list of the
    remaining entry, which the same feed without that entry yields. *)
Lemma malformed_entry_not_skipped :
  value_of (get_articles (Ex.world_of Ex.untitled_feed) (Some Ex.rss)) =
    Raise (KeyError "title") ∧
  value_of (get_articles (Ex.world_of Ex.titled_feed) (Some Ex.rss)) =
    Return (Some "<ul><li><a href='https://x.example/a'>Post A</a></li></ul>") ∧
  ¬ ∃ articles,
      value_of (get_articles (Ex.world_of Ex.untitled_feed) (Some Ex.rss)) =
        Return articles.
Proof.
  split; [reflexivity|]. split; [reflexivity|].
  intros [articles H]. vm_compute in H. discriminate.
Qed.

(** C3 (the code departs from it): an entry without a date that parses is
    not excluded.  [published_date] returns None for it, [get_articles] calls
    [.date()] on that None and raises AttributeError; the exception leaves
    [main], so the run stops after the fetch and no report is mailed. *)
Theorem undated_entry_aborts_run :
  published_date (Ex.world_of Ex.undated_feed) Ex.undated = None ∧
  get_articles (Ex.world_of Ex.undated_feed) (Some Ex.rss) [] =
    (Raise (AttributeError "'NoneType' object has no attribute 'date'"),
     [Fetch (Some Ex.rss)]) ∧
  main (Ex.world_of Ex.undated_feed) [] =
    (Raise (AttributeError "'NoneType' object has no attribute 'date'"),
     [Fetch (Some Ex.rss)]).
Proof. repeat split; reflexivity. Qed.

(** ** The date normalizer *)

(** The keys are tried in the order of [date_keys]: the first key whose
    lookup and parse both succeed gives the result. *)
Lemma published_date_from_first W e before k after dt :
  Forall (fun k' => ∀ dt', try_date_key W e k' ≠ Return dt') before ->
  try_date_key W e k = Return dt ->
  published_date_from W (before ++ k :: after) e = Some dt.
Proof.
  intros Hbefore Hk. induction Hbefore as [|k' before Hk' _ IH]; simpl.
  - by rewrite Hk.
  - destruct (try_date_key W e k') as [dt'|ex] eqn:Htry; [|exact IH].
    by destruct (Hk' dt').
Qed.

Lemma published_date_from_none W e keys :
  Forall (fun k => ∀ dt, try_date_key W e k ≠ Return dt) keys ->
  published_date_from W keys e = None.
Proof.
  induction 1 as [|k keys Hk _ IH]; simpl; [reflexivity|].
  destruct (try_date_key W e k) as [dt|ex] eqn:Htry; [|exact IH].
  by destruct (Hk dt).
Qed.

(** A structured time never parses: the key holding it is passed over. *)
Lemma try_date_key_struct_time W e k t :
  e !! k = Some (VTime t) -> ∀ dt, try_date_key W e k ≠ Return dt.
Proof.
  intros Hk dt. unfold try_date_key. rewrite (getitem_Some _ _ _ Hk). discriminate.
Qed.

(** C2 (the code departs from it): the keys are tried in the stated order,
    but a structured time is handed to the string parser, which raises
    TypeError, so the key is passed over.  For an entry with a structured
    "published" time of 2024-01-01 and a "pubDate" string of 2024-01-02 the
    result is the date of the pubDate string. *)
Theorem structured_time_loses_to_pubDate :
  Ex.both_dates !! "published_parsed" = Some (VTime Ex.jan1_struct) ∧
  Ex.both_dates !! "pubDate" = Some (VStr Ex.jan2) ∧
  published_date (Ex.world_of Ex.titled_feed) Ex.both_dates =
    Some {| dt_ordinal := 738887; dt_second := 36000 |} ∧
  published_date (Ex.world_of Ex.titled_feed) Ex.both_dates =
    parse_str (Ex.world_of Ex.titled_feed) Ex.jan2.
Proof. repeat split; reflexivity. Qed.

(** ** The mailer *)



(** C5 (the code departs from it): the [try] turns a failure of the TLS
    upgrade, the login or the send into a 400 response, but the connection
    is opened in the [with] header, outside the [try]: when the server
    refuses the connection, [send_email] raises the exception instead of
    returning a response with status 400. *)
Lemma connect_failure_is_raised :
  send_email Ex.refused_world (Some "bot@example.org") (Some "me@example.org")
    (Some "subject") "<p>report</p>" "html" [] =
    (Raise (LibraryError "ConnectionRefusedError"), []) ∧
  ¬ ∃ details tr,
      send_email Ex.refused_world (Some "bot@example.org") (Some "me@example.org")
        (Some "subject") "<p>report</p>" "html" [] =
        (Return {| status_code := 400; response_details := details |}, tr).
Proof.
  split; [reflexivity|]. intros (details & tr & H). vm_compute in H. discriminate.
Qed.

(** ** The report *)

(** No node ever yields the string ["Not found"] that [main] tests for. *)
Lemma process_outline_not_sentinel W outline :
  value_of (process_outline W outline) ≠ Return (Some "Not found").
Proof.
  destruct (decide (attrib outline !! "type" = Some "folder")) as [Hty|Hty].
  - unfold value_of. rewrite process_outline_folder by done. discriminate.
  - rewrite process_outline_source by done.
    destruct (value_of (get_articles W (attrib outline !! "xmlUrl"))) as [[a|]|e];
      discriminate.
Qed.

Lemma error_entries_empty W nodes : error_entries W nodes = "".
Proof.
  unfold error_entries. induction nodes as [|o nodes IH]; [reflexivity|].
  rewrite filter_cons_False; [exact IH|]. apply process_outline_not_sentinel.
Qed.

(** The loop of [main] on nodes whose processing returns. *)
Lemma main_loop_run W nodes report errors tr :
  Forall (fun o => ∃ v, value_of (process_outline W o) = Return v) nodes ->
  main_loop W nodes report errors tr =
    (Return (report +:+ report_body W nodes, errors +:+ error_entries W nodes),
     tr ++ flat_map fetches_of nodes).
Proof.
  intros Hnodes. revert report errors tr.
  induction Hnodes as [|o nodes [v Hv] _ IH]; intros report errors tr.
  - simpl. unfold ret, report_body, error_entries. simpl.
    by rewrite !append_nil_r, app_nil_r.
  - simpl. unfold mbind, M_bind, bind. rewrite process_outline_run, Hv.
    unfold report_body, error_entries, body_fragment.
    rewrite map_cons, Hv. fold (body_fragment W).
    destruct (decide (v = Some "Not found")) as [Hs|Hs].
    + subst v. rewrite filter_cons_True by exact Hv. rewrite IH.
      rewrite decide_True by done. simpl.
      unfold report_body, error_entries. by rewrite append_assoc, app_assoc.
    + rewrite filter_cons_False by (unfold recorded_as_error; congruence).
      destruct v as [b|]; rewrite IH.
      * rewrite decide_False by congruence. simpl.
        unfold report_body, error_entries. by rewrite append_assoc, app_assoc.
      * simpl. unfold report_body, error_entries. by rewrite app_assoc.
Qed.

(** C6: when the processing of every node returns, the report handed to the
    mailer is the body, then the header "<hr><h1>Errors</h1>", then the error
    entries accumulated by the loop; when no source failed, the report still
    ends with the header. *)
Theorem report_ends_with_error_section W tree tr :
  Forall (fun o => ∃ v, value_of (process_outline W o) = Return v)
         (findall_outline tree) ->
  build_report W tree tr =
    (Return (report_body W (findall_outline tree) +:+
             "<hr><h1>Errors</h1>" +:+ error_entries W (findall_outline tree)),
     tr ++ flat_map fetches_of (findall_outline tree)) ∧
  (Forall (fun o => ¬ fetch_failed W o) (findall_outline tree) ->
   build_report W tree tr =
     (Return (report_body W (findall_outline tree) +:+ "<hr><h1>Errors</h1>"),
      tr ++ flat_map fetches_of (findall_outline tree))).
Proof.
  intros Hnodes.
  assert (build_report W tree tr =
            (Return (report_body W (findall_outline tree) +:+
                     "<hr><h1>Errors</h1>" +:+ error_entries W (findall_outline tree)),
             tr ++ flat_map fetches_of (findall_outline tree))) as Hrun.
  { unfold build_report, mbind, M_bind, bind.
    rewrite (main_loop_run _ _ _ _ _ Hnodes). reflexivity. }
  split; [exact Hrun|].
  intros _. rewrite Hrun, error_entries_empty. reflexivity.
Qed.

Lemma report_ends_with_error_section_witness :
  build_report (Ex.mk_world Ex.tech_feeds Ex.tech_tree) Ex.tech_tree [] =
    (Return "<hr><h1>Tech</h1><h2>BlogX</h2><ul><li><a href='https://x.example/a'>Post A</a></li></ul><hr><h1>Errors</h1>",
     [Fetch (Some Ex.rss)]).
Proof.
  pose proof (report_ends_with_error_section
                (Ex.mk_world Ex.tech_feeds Ex.tech_tree) Ex.tech_tree []) as H.
  destruct H as [Hrun _].
  - vm_compute. repeat constructor; eexists; reflexivity.
  - rewrite Hrun. reflexivity.
Defined.

(** C1 (the code departs from it): a failed fetch is never listed in the
    error section.  A source answering 404 puts "<h2>BlogX</h2>Not Found"
    into the body, a source whose fetch raises puts nothing anywhere; in both
    runs the error section is the bare header. *)
Theorem failed_fetch_not_reported :
  build_report (Ex.world_of Ex.notfound_feed) Ex.one_source_tree [] =
    (Return "<h2>BlogX</h2>Not Found<hr><h1>Errors</h1>", [Fetch (Some Ex.rss)]) ∧
  build_report (Ex.mk_world Ex.down Ex.one_source_tree) Ex.one_source_tree [] =
    (Return "<hr><h1>Errors</h1>", [Fetch (Some Ex.rss)]).
Proof. split; reflexivity. Qed.

(** ** The report as a function of its inputs *)

Section SameInputs.

Context (W1 W2 : world).
Hypothesis same_today : today W1 = today W2.
Hypothesis same_parser : ∀ s, parse_str W1 s = parse_str W2 s.

Lemma parser_parse_ext v : parser_parse W1 v = parser_parse W2 v.
Proof. destruct v as [s|t]; simpl; [by rewrite same_parser|reflexivity]. Qed.

Lemma published_date_ext e : published_date W1 e = published_date W2 e.
Proof.
  unfold published_date. induction date_keys as [|k keys IH]; [reflexivity|].
  simpl. unfold try_date_key, mbind, result_bind, rbind.
  destruct (getitem e k) as [v|ex]; [|exact IH].
  rewrite parser_parse_ext. by rewrite IH.
Qed.

Lemma articles_loop_ext es acc n :
  articles_loop W1 es acc n = articles_loop W2 es acc n.
Proof.
  revert acc n. induction es as [|e es IH]; intros acc n; [reflexivity|].
  simpl. unfold mbind, result_bind, rbind.
  destruct (getitem e "title") as [title|]; [|reflexivity].
  destruct (getitem e "link") as [link|]; [|reflexivity].
  rewrite published_date_ext. unfold yesterday. rewrite same_today.
  destruct (published_date W2 e) as [dt|]; [|reflexivity].
  destruct (decide (date dt = today W2 - 1)); apply IH.
Qed.

Lemma get_articles_ext url tr :
  feedparser_parse W1 url = feedparser_parse W2 url ->
  get_articles W1 url tr = get_articles W2 url tr.
Proof.
  intros Hfeed. unfold get_articles, timer, mbind, M_bind, bind, attempt.
  rewrite !fetch_run, Hfeed. destruct (feedparser_parse W2 url) as [f|ex]; [|reflexivity].
  destruct (decide (status f = Some 404)); [reflexivity|].
  unfold lift. by rewrite articles_loop_ext.
Qed.

Lemma process_outline_ext outline tr :
  (attrib outline !! "type" ≠ Some "folder" ->
   feedparser_parse W1 (attrib outline !! "xmlUrl") =
   feedparser_parse W2 (attrib outline !! "xmlUrl")) ->
  process_outline W1 outline tr = process_outline W2 outline tr.
Proof.
  intros Hfeed. unfold process_outline.
  destruct (decide (attrib outline !! "type" = Some "folder")) as [Hty|Hty];
    [reflexivity|].
  unfold mbind, M_bind, bind. by rewrite get_articles_ext by auto.
Qed.

Lemma main_loop_ext nodes report errors tr :
  Forall (fun o => attrib o !! "type" ≠ Some "folder" ->
            feedparser_parse W1 (attrib o !! "xmlUrl") =
            feedparser_parse W2 (attrib o !! "xmlUrl")) nodes ->
  main_loop W1 nodes report errors tr = main_loop W2 nodes report errors tr.
Proof.
  intros Hnodes. revert report errors tr.
  induction Hnodes as [|o nodes Ho _ IH]; intros report errors tr; [reflexivity|].
  simpl. unfold mbind, M_bind, bind. rewrite (process_outline_ext o tr Ho).
  destruct (process_outline W2 o tr) as [[v|ex] tr']; [|reflexivity].
  destruct (decide (v = Some "Not found")); [apply IH|].
  destruct v; apply IH.
Qed.

End SameInputs.

(** C8: two runs over the same feed-list document, on the same day, with
    the same date parser and the same answer from every feed the document
    names, build the same report (or stop with the same exception), and make
    the same fetches. *)
Theorem report_deterministic W1 W2 tree tr :
  same_feeds W1 W2 (findall_outline tree) ->
  build_report W1 tree tr = build_report W2 tree tr.
Proof.
  intros (Htoday & Hparse & Hfeeds). unfold build_report, mbind, M_bind, bind.
  by rewrite (main_loop_ext W1 W2 Htoday Hparse _ _ _ _ Hfeeds).
Qed.

Lemma report_deterministic_witness :
  build_report (Ex.mk_world Ex.tech_feeds Ex.tech_tree) Ex.tech_tree [] =
  build_report Ex.other_world Ex.tech_tree [].
Proof.
  apply (report_deterministic
           (Ex.mk_world Ex.tech_feeds Ex.tech_tree) Ex.other_world Ex.tech_tree []).
  split; [reflexivity|]. split; [reflexivity|].
  vm_compute. repeat constructor.
  intros Hty. exfalso. apply Hty. reflexivity.
Defined.

(** * Further properties of the code *)

(** ** [published_date] *)

(** One key yields a date exactly when it holds a string that parses. *)
Lemma try_date_key_Return W (e : entry) k dt :
  try_date_key W e k = Return dt ↔
  ∃ s, e !! k = Some (VStr s) ∧ parse_str W s = Some dt.
Proof.
  unfold try_date_key, mbind, result_bind, rbind, getitem.
  destruct (e !! k) as [[s|t]|]; simpl.
  - destruct (parse_str W s) as [dt'|] eqn:Hp; split.
    + intros [= <-]. by exists s.
    + intros (s' & [= <-] & Hs'). congruence.
    + discriminate.
    + intros (s' & [= <-] & Hs'). congruence.
  - split; [discriminate|]. by intros (s & [=] & _).
  - split; [discriminate|]. by intros (s & [=] & _).
Qed.

Lemma published_date_from_Some W keys (e : entry) dt :
  published_date_from W keys e = Some dt ->
  ∃ k, k ∈ keys ∧ try_date_key W e k = Return dt.
Proof.
  induction keys as [|k keys IH]; simpl; [discriminate|].
  destruct (try_date_key W e k) as [dt'|ex] eqn:Htry.
  - intros [= <-]. exists k. split; [left|done].
  - intros H. destruct (IH H) as (k' & Hin & Hk'). exists k'. split; [by right|done].
Qed.

Lemma published_date_from_None W keys (e : entry) :
  published_date_from W keys e = None ->
  Forall (fun k => ∀ dt, try_date_key W e k ≠ Return dt) keys.
Proof.
  induction keys as [|k keys IH]; simpl; [constructor|].
  destruct (try_date_key W e k) as [dt'|ex] eqn:Htry; [discriminate|].
  intros H. constructor; [|by apply IH].
  intros dt. rewrite Htry. discriminate.
Qed.

(** X1: a date returned by [published_date] is always the parse of a string
    stored in the entry under one of the five date keys. *)
Theorem published_date_sound W (e : entry) dt :
  published_date W e = Some dt ->
  ∃ k s, k ∈ date_keys ∧ e !! k = Some (VStr s) ∧ parse_str W s = Some dt.
Proof.
  intros H. apply published_date_from_Some in H as (k & Hin & Hk).
  apply try_date_key_Return in Hk as (s & Hs & Hp). by exists k, s.
Qed.

Lemma published_date_sound_witness :
  ∃ k s, k ∈ date_keys ∧ Ex.two_raw_dates !! k = Some (VStr s) ∧
         parse_str (Ex.world_of Ex.titled_feed) s =
           Some {| dt_ordinal := 738887; dt_second := 36000 |}.
Proof.
  apply (published_date_sound (Ex.world_of Ex.titled_feed) Ex.two_raw_dates).
  reflexivity.
Defined.

(** X2: [published_date] returns None exactly when none of the five date
    keys holds a string that parses; it never raises. *)
Theorem published_date_None_iff W (e : entry) :
  published_date W e = None ↔
  ∀ k s, k ∈ date_keys -> e !! k = Some (VStr s) -> parse_str W s = None.
Proof.
  split.
  - intros H k s Hin Hs. apply published_date_from_None in H.
    rewrite Forall_forall in H. specialize (H k Hin).
    destruct (parse_str W s) as [dt|] eqn:Hp; [|done].
    destruct (H dt). apply try_date_key_Return. by exists s.
  - intros H. apply published_date_from_none. apply Forall_forall.
    intros k Hin dt Hk. apply try_date_key_Return in Hk as (s & Hs & Hp).
    rewrite (H k s Hin Hs) in Hp. discriminate.
Qed.

(** X3: the keys are tried in the order of [date_keys]: a string that parses
    is returned whenever no earlier key holds a string that parses. *)
Theorem published_date_first_parsing_key W (e : entry) before k after s dt :
  date_keys = before ++ k :: after ->
  Forall (fun k' => ∀ s', e !! k' = Some (VStr s') -> parse_str W s' = None) before ->
  e !! k = Some (VStr s) ->
  parse_str W s = Some dt ->
  published_date W e = Some dt.
Proof.
  intros Hkeys Hbefore Hs Hp. unfold published_date. rewrite Hkeys.
  apply published_date_from_first.
  - eapply Forall_impl; [exact Hbefore|]. simpl. intros k' Hk' dt' Htry.
    apply try_date_key_Return in Htry as (s' & Hs' & Hp').
    rewrite (Hk' s' Hs') in Hp'. discriminate.
  - apply try_date_key_Return. by exists s.
Qed.

Lemma published_date_first_parsing_key_witness :
  published_date (Ex.world_of Ex.titled_feed) Ex.two_raw_dates =
    Some {| dt_ordinal := 738887; dt_second := 36000 |}.
Proof.
  apply (published_date_first_parsing_key (Ex.world_of Ex.titled_feed)
           Ex.two_raw_dates ["published_parsed"; "updated_parsed"] "pubDate"
           ["updated"; "published"] Ex.jan2).
  - reflexivity.
  - repeat constructor; intros s' Hs'; vm_compute in Hs'; discriminate.
  - reflexivity.
  - reflexivity.
Defined.

(** X4: when "published_parsed" and "updated_parsed" are absent or hold
    structured times, as feedparser fills them, they play no part: the result
    is decided by "pubDate", "updated" and "published" alone, in that order. *)
Theorem published_date_raw_keys_only W (e : entry) :
  (∀ s, e !! "published_parsed" ≠ Some (VStr s)) ->
  (∀ s, e !! "updated_parsed" ≠ Some (VStr s)) ->
  published_date W e = published_date_from W raw_date_keys e.
Proof.
  intros Hp Hu. unfold published_date, date_keys, raw_date_keys.
  change (published_date_from W ("published_parsed" :: "updated_parsed" ::
            ["pubDate"; "updated"; "published"]) e) with
    (match try_date_key W e "published_parsed" with
     | Return dt => Some dt
     | Raise _ =>
         match try_date_key W e "updated_parsed" with
         | Return dt => Some dt
         | Raise _ => published_date_from W ["pubDate"; "updated"; "published"] e
         end
     end).
  destruct (try_date_key W e "published_parsed") as [dt|ex] eqn:H1.
  { apply try_date_key_Return in H1 as (s & Hs & _). by destruct (Hp s). }
  destruct (try_date_key W e "updated_parsed") as [dt|ex'] eqn:H2.
  { apply try_date_key_Return in H2 as (s & Hs & _). by destruct (Hu s). }
  reflexivity.
Qed.

Lemma published_date_raw_keys_only_witness :
  published_date (Ex.world_of Ex.titled_feed) Ex.both_dates =
  published_date_from (Ex.world_of Ex.titled_feed) raw_date_keys Ex.both_dates.
Proof.
  apply (published_date_raw_keys_only (Ex.world_of Ex.titled_feed) Ex.both_dates).
  - intros s Hs. vm_compute in Hs. discriminate.
  - intros s Hs. vm_compute in Hs. discriminate.
Defined.

Lemma published_date_from_insert W keys (e : entry) k v :
  k ∉ keys ->
  published_date_from W keys (<[k:=v]> e) = published_date_from W keys e.
Proof.
  induction keys as [|k' keys IH]; intros Hk; [reflexivity|].
  apply not_elem_of_cons in Hk as [Hne Hk]. simpl.
  unfold try_date_key, getitem. rewrite lookup_insert_ne by done.
  by rewrite IH.
Qed.

(** X5: [published_date] reads the five date keys only: storing any value
    under another key of the entry leaves the result unchanged. *)
Theorem published_date_other_key W (e : entry) k v :
  k ∉ date_keys ->
  published_date W (<[k:=v]> e) = published_date W e.
Proof. apply published_date_from_insert. Qed.

Lemma published_date_other_key_witness :
  published_date (Ex.world_of Ex.titled_feed)
    (<["summary" := VStr Ex.jan1]> Ex.two_raw_dates) =
  published_date (Ex.world_of Ex.titled_feed) Ex.two_raw_dates.
Proof.
  apply (published_date_other_key (Ex.world_of Ex.titled_feed) Ex.two_raw_dates
           "summary" (VStr Ex.jan1)).
  intros Hin. vm_compute in Hin.
  repeat (apply elem_of_cons in Hin as [Hin|Hin]; [discriminate|]).
  by apply elem_of_nil in Hin.
Defined.

(** ** [get_articles] *)

(** The value of [get_articles], case by case. *)
Lemma get_articles_value W url :
  value_of (get_articles W url) =
    match feedparser_parse W url with
    | Raise _ => Return None
    | Return f =>
        if decide (status f = Some 404) then Return (Some "Not Found")
        else
          match articles_loop W (entries f) "<ul>" 0 with
          | Raise e => Raise e
          | Return (a, k) =>
              if decide (0 < k)%nat then Return (Some (a +:+ "</ul>")) else Return None
          end
    end.
Proof.
  unfold value_of, get_articles, timer, mbind, M_bind, bind, attempt.
  rewrite fetch_run. destruct (feedparser_parse W url) as [f|e]; [|reflexivity].
  destruct (decide (status f = Some 404)) as [H404|H404]; [reflexivity|].
  unfold lift. destruct (articles_loop W (entries f) "<ul>" 0) as [[a k]|e]; [|reflexivity].
  destruct (decide (0 < k)%nat); reflexivity.
Qed.

(** The loop returns exactly on entries that all have a title, a link and a
    date. *)
Lemma articles_loop_returns W es acc n :
  (∃ v, articles_loop W es acc n = Return v) ↔ Forall (entry_passes W) es.
Proof.
  revert acc n. induction es as [|e es IH]; intros acc n.
  { split; [constructor|]. intros _. by eexists. }
  simpl. unfold mbind, result_bind, rbind, getitem.
  destruct (e !! "title") as [t|] eqn:Ht.
  2:{ split; [by intros [v [=]]|]. intros Hall.
      inversion Hall as [|? ? ([x Hx] & _)]; subst. congruence. }
  destruct (e !! "link") as [l|] eqn:Hl.
  2:{ split; [by intros [v [=]]|]. intros Hall.
      inversion Hall as [|? ? (_ & [x Hx] & _)]; subst. congruence. }
  destruct (published_date W e) as [dt|] eqn:Hd.
  2:{ split; [by intros [v [=]]|]. intros Hall.
      inversion Hall as [|? ? (_ & _ & [x Hx])]; subst. congruence. }
  assert (entry_passes W e) as Hpass.
  { unfold entry_passes. rewrite Ht, Hl, Hd. eauto. }
  destruct (decide (date dt = yesterday W)).
  - rewrite IH. split; [by constructor|]. by inversion 1.
  - rewrite IH. split; [by constructor|]. by inversion 1.
Qed.

(** X6: [get_articles] returns instead of raising exactly in three cases: the
    fetch itself raised, the feed answered 404, or every entry of the feed
    has a title, a link and a date that parses. *)
Theorem get_articles_returns_iff W url :
  (∃ v, value_of (get_articles W url) = Return v) ↔
  match feedparser_parse W url with
  | Raise _ => True
  | Return f => status f = Some 404 ∨ Forall (entry_passes W) (entries f)
  end.
Proof.
  rewrite get_articles_value. destruct (feedparser_parse W url) as [f|e].
  2:{ split; [done|]. intros _. by eexists. }
  destruct (decide (status f = Some 404)) as [H404|H404].
  { split; [by left|]. intros _. by eexists. }
  rewrite <- articles_loop_returns with (acc := "<ul>") (n := 0%nat).
  destruct (articles_loop W (entries f) "<ul>" 0) as [[a k]|e].
  - split; [intros _; right; by eexists|]. intros _.
    destruct (decide (0 < k)%nat); by eexists.
  - split; [by intros [v [=]]|]. intros [?|[v [=]]]. done.
Qed.

(** X7: a feed none of whose entries is dated yesterday (an empty feed too)
    gives None, not an empty list. *)
Theorem get_articles_nothing_kept W url f items tr :
  feedparser_parse W url = Return f ->
  status f ≠ Some 404 ->
  Forall2 (entry_item W) (entries f) items ->
  kept_items W items = [] ->
  get_articles W url tr = (Return None, tr ++ [Fetch url]).
Proof.
  intros Hfeed H404 Hitems Hkept. rewrite get_articles_run, get_articles_value.
  rewrite Hfeed. rewrite decide_False by done.
  rewrite (articles_loop_items _ _ _ _ _ Hitems), Hkept. reflexivity.
Qed.

Lemma get_articles_nothing_kept_witness :
  get_articles (Ex.world_of Ex.old_feed) (Some Ex.rss) [] =
    (Return None, [Fetch (Some Ex.rss)]).
Proof.
  apply (get_articles_nothing_kept (Ex.world_of Ex.old_feed) (Some Ex.rss)
           Ex.old_feed [Ex.old_item] []).
  - reflexivity.
  - discriminate.
  - constructor; [|constructor]. repeat split; reflexivity.
  - reflexivity.
Defined.

(** The counter grows with the list: it is unchanged exactly when nothing
    was appended, and otherwise the first thing appended is an [<li>]. *)
Lemma articles_loop_count W es acc n a k :
  articles_loop W es acc n = Return (a, k) ->
  (n ≤ k)%nat ∧ (k = n -> a = acc) ∧
  ((n < k)%nat -> ∃ rest, a = acc +:+ "<li><a href='" +:+ rest).
Proof.
  revert acc n. induction es as [|e es IH]; intros acc n Hrun; simpl in Hrun.
  - injection Hrun as <- <-. split; [lia|]. split; [done|lia].
  - unfold mbind, result_bind, rbind in Hrun.
    destruct (getitem e "title") as [title|]; [|discriminate].
    destruct (getitem e "link") as [link|]; [|discriminate].
    destruct (published_date W e) as [dt|]; [|discriminate].
    destruct (decide (date dt = yesterday W)) as [Hd|Hd].
    + pose proof (articles_loop_extends _ _ _ _ _ _ Hrun) as [suffix ->].
      apply IH in Hrun as (Hle & _ & _). split; [lia|]. split; [lia|].
      intros _. exists (format_value link +:+ "'>" +:+ format_value title +:+
                        "</a></li>" +:+ suffix).
      unfold li. by rewrite !append_assoc.
    + by apply IH in Hrun.
Qed.

(** X8: whatever the feed, a string returned by [get_articles] is either the
    text "Not Found" or a list that opens with "<ul><li><a href='" and closes
    with "</ul>"; an empty list "<ul></ul>" is never returned. *)
Theorem get_articles_result_shape W url a :
  value_of (get_articles W url) = Return (Some a) ->
  (a = "Not Found" ∨ ∃ rest, a = "<ul><li><a href='" +:+ rest +:+ "</ul>") ∧
  a ≠ "<ul></ul>".
Proof.
  rewrite get_articles_value. destruct (feedparser_parse W url) as [f|e]; [|discriminate].
  destruct (decide (status f = Some 404)) as [H404|H404].
  { intros [= <-]. split; [by left|discriminate]. }
  destruct (articles_loop W (entries f) "<ul>" 0) as [[b k]|e] eqn:Hloop; [|discriminate].
  destruct (decide (0 < k)%nat) as [Hk|Hk]; [|discriminate].
  intros [= <-]. apply articles_loop_count in Hloop as (_ & _ & Hrest).
  destruct (Hrest Hk) as [rest ->]. split; [|discriminate].
  right. exists rest. by rewrite !append_assoc.
Qed.

Lemma get_articles_result_shape_witness :
  ("<ul><li><a href='https://x.example/a'>Post A</a></li></ul>" = "Not Found" ∨
   ∃ rest, "<ul><li><a href='https://x.example/a'>Post A</a></li></ul>" =
           "<ul><li><a href='" +:+ rest +:+ "</ul>") ∧
  "<ul><li><a href='https://x.example/a'>Post A</a></li></ul>" ≠ "<ul></ul>".
Proof.
  apply (get_articles_result_shape (Ex.world_of Ex.titled_feed) (Some Ex.rss)).
  reflexivity.
Defined.

(** ** [process_outline] *)

(** X9: for a feed source whose fetch raised, [process_outline] returns None;
    for one whose feed answered 404 it returns the source's heading followed
    by the text "Not Found".  Either way one fetch was made and nothing is
    raised. *)
Theorem failed_source_result W outline tr :
  fetch_failed W outline ->
  process_outline W outline tr =
    (Return (match feedparser_parse W (attrib outline !! "xmlUrl") with
             | Raise _ => None
             | Return _ =>
                 Some ("<h2>" +:+ format_opt (attrib outline !! "title") +:+
                       "</h2>Not Found")
             end),
     tr ++ [Fetch (attrib outline !! "xmlUrl")]).
Proof.
  intros [Hty Hfail]. rewrite process_outline_run. unfold fetches_of.
  rewrite decide_False by done. f_equal.
  rewrite process_outline_source by done. rewrite get_articles_value.
  destruct (feedparser_parse W (attrib outline !! "xmlUrl")) as [f|e]; [|reflexivity].
  by rewrite decide_True.
Qed.

Lemma failed_source_result_witness :
  process_outline (Ex.world_of Ex.notfound_feed) (Ex.feed_node "BlogX" Ex.rss) [] =
    (Return (Some "<h2>BlogX</h2>Not Found"), [Fetch (Some Ex.rss)]).
Proof.
  apply (failed_source_result (Ex.world_of Ex.notfound_feed)
           (Ex.feed_node "BlogX" Ex.rss) []).
  split; [|reflexivity]. vm_compute. discriminate.
Defined.

(** ** The loop of [main] *)

(** X10: whatever the nodes and the feeds, a run of the loop that returns
    hands back the error text it was given, unchanged, and a report that
    extends the one it was given: no error entry is ever appended. *)
Theorem main_loop_never_records_error W nodes report errors tr r e tr' :
  main_loop W nodes report errors tr = (Return (r, e), tr') ->
  e = errors ∧ ∃ added, r = report +:+ added.
Proof.
  revert report errors tr. induction nodes as [|o nodes IH]; intros report errors tr.
  - simpl. intros [= <- <- <-]. split; [done|]. exists "". by rewrite append_nil_r.
  - simpl. unfold mbind, M_bind, bind. rewrite process_outline_run.
    pose proof (process_outline_not_sentinel W o) as Hns.
    destruct (value_of (process_outline W o)) as [v|ex]; [|discriminate].
    destruct (decide (v = Some "Not found")) as [Hs|Hs]; [congruence|].
    destruct v as [b|]; intros Hrun; apply IH in Hrun as [-> [added ->]].
    + split; [done|]. exists (b +:+ added). by rewrite append_assoc.
    + split; [done|]. by exists added.
Qed.

Lemma main_loop_never_records_error_witness :
  "<hr><h1>Errors</h1>" = "<hr><h1>Errors</h1>" ∧
  ∃ added, "<h2>BlogX</h2>Not Found" = "" +:+ added.
Proof.
  apply (main_loop_never_records_error (Ex.world_of Ex.notfound_feed)
           (findall_outline Ex.one_source_tree) "" "<hr><h1>Errors</h1>" []
           "<h2>BlogX</h2>Not Found" "<hr><h1>Errors</h1>" [Fetch (Some Ex.rss)]).
  reflexivity.
Defined.

(** X11: the loop over two lists of nodes one after the other is the loop
    over the first, then the loop over the second started from the report
    and error text the first produced; an exception in the first stops it. *)
Theorem main_loop_app W nodes1 nodes2 report errors tr :
  main_loop W (nodes1 ++ nodes2) report errors tr =
    match main_loop W nodes1 report errors tr with
    | (Return (report', errors'), tr') => main_loop W nodes2 report' errors' tr'
    | (Raise ex, tr') => (Raise ex, tr')
    end.
Proof.
  revert report errors tr. induction nodes1 as [|o nodes1 IH]; intros report errors tr.
  - reflexivity.
  - simpl. unfold mbind, M_bind, bind.
    destruct (process_outline W o tr) as [[v|ex] tr1]; [|reflexivity].
    destruct (decide (v = Some "Not found")); [apply IH|].
    destruct v; apply IH.
Qed.

(** The report of a run in which every node returns. *)
Lemma build_report_run W tree tr :
  Forall (fun o => ∃ v, value_of (process_outline W o) = Return v)
         (findall_outline tree) ->
  build_report W tree tr =
    (Return (report_body W (findall_outline tree) +:+ "<hr><h1>Errors</h1>"),
     tr ++ flat_map fetches_of (findall_outline tree)).
Proof.
  intros Hnodes. unfold build_report, mbind, M_bind, bind.
  rewrite (main_loop_run _ _ _ _ _ Hnodes), error_entries_empty. reflexivity.
Qed.

(** X12: the run stops at the first node whose processing raises: the
    exception leaves [build_report], the feeds of the nodes before it and its
    own have been fetched, and no later feed is fetched. *)
Theorem build_report_stops_at_first_raise W tree before o after ex tr :
  findall_outline tree = before ++ o :: after ->
  Forall (fun o' => ∃ v, value_of (process_outline W o') = Return v) before ->
  value_of (process_outline W o) = Raise ex ->
  build_report W tree tr =
    (Raise ex, tr ++ flat_map fetches_of before ++ fetches_of o).
Proof.
  intros Hnodes Hbefore Hraise. unfold build_report, mbind, M_bind, bind.
  rewrite Hnodes, main_loop_app, (main_loop_run _ _ _ _ _ Hbefore). simpl.
  unfold mbind, M_bind, bind. rewrite process_outline_run, Hraise.
  by rewrite app_assoc.
Qed.

Lemma build_report_stops_at_first_raise_witness :
  build_report (Ex.mk_world Ex.two_feeds Ex.two_sources_tree) Ex.two_sources_tree [] =
    (Raise (AttributeError "'NoneType' object has no attribute 'date'"),
     [Fetch (Some Ex.urss)]).
Proof.
  apply (build_report_stops_at_first_raise
           (Ex.mk_world Ex.two_feeds Ex.two_sources_tree) Ex.two_sources_tree
           [] (Ex.feed_node "BlogU" Ex.urss) [Ex.feed_node "BlogX" Ex.rss]
           (AttributeError "'NoneType' object has no attribute 'date'") []).
  - reflexivity.
  - constructor.
  - reflexivity.
Defined.

(** ** [SmtpMailer.send_email] *)

(** Every way a call of [send_email] can go. *)
Lemma send_email_run W from_email to_email subject content type tr :
  send_email W from_email to_email subject content type tr =
    match smtp_connect (smtp W) with
    | Some e => (Raise e, tr)
    | None =>
        match session_failure (smtp W), smtp_quit (smtp W) with
        | None, None =>
            (Return {| status_code := 201; response_details := Text "email sent" |},
             tr ++ [Sendmail (set_message from_email to_email subject content type)])
        | None, Some e =>
            (Raise e,
             tr ++ [Sendmail (set_message from_email to_email subject content type)])
        | Some e', None =>
            (Return {| status_code := 400; response_details := Exc e' |}, tr)
        | Some _, Some e => (Raise e, tr)
        end
    end.
Proof.
  unfold send_email, session_failure, mbind, M_bind, bind, attempt.
  destruct (smtp_connect (smtp W)) as [e|]; [reflexivity|]. simpl.
  destruct (smtp_starttls (smtp W)) as [e|]; simpl.
  { destruct (smtp_quit (smtp W)); reflexivity. }
  destruct (smtp_login (smtp W)) as [e|]; simpl.
  { destruct (smtp_quit (smtp W)); reflexivity. }
  destruct (smtp_sendmail (smtp W)) as [e|]; simpl;
    destruct (smtp_quit (smtp W)); reflexivity.
Qed.



(** ** [main] and [lambda_handler] *)

(** X14: when the feed list is loaded, every node's processing returns and
    the mail session goes through, [main] returns after fetching one feed per
    source in document order and sending one message: subject "Today's new
    articles and videos.", content type html, the configured addresses, and
    the report (body, then the errors header) as content. *)
Theorem main_sends_report_once W tree tr :
  load_feeds W = Some tree ->
  Forall (fun o => ∃ v, value_of (process_outline W o) = Return v)
         (findall_outline tree) ->
  smtp_connect (smtp W) = None ->
  session_failure (smtp W) = None ->
  smtp_quit (smtp W) = None ->
  main W tr =
    (Return (),
     tr ++ flat_map fetches_of (findall_outline tree) ++
       [Sendmail (report_message W (report_body W (findall_outline tree) +:+
                                    "<hr><h1>Errors</h1>"))]).
Proof.
  intros Hload Hnodes Hconnect Hsession Hquit. unfold main. rewrite Hload.
  unfold mbind, M_bind, bind. rewrite (build_report_run _ _ _ Hnodes).
  rewrite send_email_run, Hconnect, Hsession, Hquit. unfold ret.
  by rewrite <- app_assoc.
Qed.

Lemma main_sends_report_once_witness :
  main (Ex.mk_world Ex.tech_feeds Ex.tech_tree) [] =
    (Return (),
     [Fetch (Some Ex.rss);
      Sendmail
        {| msg_subject := Some "Today's new articles and videos.";
           msg_from := Some "bot@example.org"; msg_to := Some "me@example.org";
           msg_content := "<hr><h1>Tech</h1><h2>BlogX</h2><ul><li><a href='https://x.example/a'>Post A</a></li></ul><hr><h1>Errors</h1>";
           msg_subtype := "html" |}]).
Proof.
  pose proof (main_sends_report_once
                (Ex.mk_world Ex.tech_feeds Ex.tech_tree) Ex.tech_tree []) as H.
  rewrite H.
  - reflexivity.
  - reflexivity.
  - vm_compute. repeat constructor; eexists; reflexivity.
  - reflexivity.
  - reflexivity.
  - reflexivity.
Defined.



(** The loop of [main] adds fetches to the trace, and nothing else. *)
Lemma main_loop_trace W nodes report errors tr :
  ∃ urls, snd (main_loop W nodes report errors tr) = tr ++ map Fetch urls.
Proof.
  revert report errors tr. induction nodes as [|o nodes IH]; intros report errors tr.
  - exists []. simpl. by rewrite app_nil_r.
  - simpl. unfold mbind, M_bind, bind. rewrite process_outline_run.
    assert (∃ us, fetches_of o = map Fetch us) as [us Hus].
    { unfold fetches_of. destruct (decide _); [by exists []|by eexists [_]]. }
    rewrite Hus.
    assert (∀ r e, ∃ urls, snd (main_loop W nodes r e (tr ++ map Fetch us)) =
                           tr ++ map Fetch urls) as Hrest.
    { intros r e. destruct (IH r e (tr ++ map Fetch us)) as [urls ->].
      exists (us ++ urls). by rewrite map_app, app_assoc. }
    destruct (value_of (process_outline W o)) as [v|ex]; [|by exists us].
    destruct (decide (v = Some "Not found")); [apply Hrest|].
    destruct v; apply Hrest.
Qed.

(** X16: once [load_feeds] has returned (a tree, or None), an invocation of
    the handler, whatever its event and context, extends the trace by feed
    fetches followed by at most one sent message; when [load_feeds] returned
    None it raises AssertionError without fetching a feed or sending mail. *)
Theorem lambda_handler_trace {E C : Type} W (event : E) (context : C) tr :
  (∃ urls mails,
     snd (lambda_handler W event context tr) =
       tr ++ map Fetch urls ++ map Sendmail mails ∧ (length mails ≤ 1)%nat) ∧
  (load_feeds W = None ->
   lambda_handler W event context tr =
     (Raise (AssertionError "Failed to load the RSS feeds."), tr)).
Proof.
  unfold lambda_handler, main. destruct (load_feeds W) as [tree|]; split; try done.
  2:{ exists [], []. simpl. rewrite app_nil_r. split; [done|lia]. }
  unfold mbind, M_bind, bind, build_report.
  unfold mbind, M_bind, bind.
  destruct (main_loop_trace W (findall_outline tree) "" errors_header tr) as [urls Hurls].
  destruct (main_loop W (findall_outline tree) "" errors_header tr) as [[[r e]|ex] tr1];
    simpl in Hurls; subst tr1.
  2:{ exists urls, []. simpl. rewrite app_nil_r. split; [done|lia]. }
  unfold ret at 1. rewrite send_email_run.
  destruct (smtp_connect (smtp W)).
  { exists urls, []. simpl. rewrite app_nil_r. split; [done|lia]. }
  destruct (session_failure (smtp W)), (smtp_quit (smtp W)); simpl.
  - exists urls, []. simpl. rewrite app_nil_r. split; [done|lia].
  - exists urls, []. simpl. rewrite app_nil_r. split; [done|lia].
  - eexists urls, [_]. simpl. rewrite <- app_assoc. split; [done|lia].
  - eexists urls, [_]. simpl. rewrite <- app_assoc. split; [done|lia].
Qed.

(** ** [findall] on the feed list *)

Lemma element_ind_nested (P : element -> Prop) :
  (∀ t a cs, Forall P cs -> P (Element t a cs)) -> ∀ e, P e.
Proof.
  intros Hstep. fix IH 1. intros [t a cs]. apply Hstep.
  induction cs as [|c cs IHcs]; constructor; [apply IH|exact IHcs].
Qed.

Lemma descendants_below o t : In o (descendants t) -> below o t.
Proof.
  revert o. induction t as [t a cs IH] using element_ind_nested. intros o.
  induction IH as [|c cs Hc _ IHcs].
  - intros [].
  - rewrite descendants_unfold. intros [<-|Hin].
    + apply below_child. by left.
    + apply in_app_or in Hin as [Hin|Hin].
      * apply below_deeper with (c := c); [by left|]. by apply Hc.
      * specialize (IHcs Hin). inversion IHcs as [? Hch|? c' Hch Hb]; subst.
        -- apply below_child. by right.
        -- apply below_deeper with (c := c'); [by right|done].
Qed.

(** X17: the nodes [main] walks are exactly the elements tagged "outline"
    that lie below the root of the document, at whatever depth; elements with
    another tag are passed over. *)
Theorem findall_outline_iff o tree :
  In o (findall_outline tree) ↔ below o tree ∧ tag o = "outline".
Proof.
  split.
  - intros Hin. apply list_elem_of_In, list_elem_of_filter in Hin as [Htag Hin].
    split; [|done]. by apply descendants_below, list_elem_of_In.
  - intros [Hb Ht]. by apply findall_outline_complete.
Qed.

Lemma descendants_subtree o t :
  below o t -> ∃ l1 l2, descendants t = l1 ++ o :: descendants o ++ l2.
Proof.
  assert (∀ t c, In c (children t) ->
            ∃ l1 l2, descendants t = l1 ++ c :: descendants c ++ l2) as Hchild.
  { intros [t' a cs] c. simpl children. induction cs as [|c' cs IH]; intros Hin.
    - destruct Hin.
    - rewrite descendants_unfold. destruct Hin as [->|Hin].
      + by exists [], (descendants (Element t' a cs)).
      + destruct (IH Hin) as (l1 & l2 & ->).
        exists (c' :: descendants c' ++ l1), l2.
        simpl. by rewrite <- app_assoc. }
  induction 1 as [t Hin|t c Hin _ IH].
  - by apply Hchild.
  - destruct (Hchild t c Hin) as (l1 & l2 & ->). destruct IH as (m1 & m2 & ->).
    exists (l1 ++ c :: m1), (m2 ++ l2).
    rewrite <- !app_assoc. simpl. by rewrite <- !app_assoc.
Qed.

(** X18: document order: an outline node is walked immediately before the
    outline nodes that lie below it, and these stay together; so a folder's
    header is followed directly by the sources it contains. *)
Theorem findall_outline_subtree o tree :
  below o tree ->
  tag o = "outline" ->
  ∃ l1 l2, findall_outline tree = l1 ++ o :: findall_outline o ++ l2.
Proof.
  intros Hb Ht. destruct (descendants_subtree o tree Hb) as (l1 & l2 & Hd).
  unfold findall_outline. rewrite Hd.
  exists (filter (fun e => tag e = "outline") l1),
         (filter (fun e => tag e = "outline") l2).
  rewrite filter_app, filter_cons_True by done. by rewrite filter_app.
Qed.

Lemma findall_outline_subtree_witness :
  ∃ l1 l2, findall_outline Ex.nested_tree =
           l1 ++ Ex.blogs_folder :: findall_outline Ex.blogs_folder ++ l2.
Proof.
  apply (findall_outline_subtree Ex.blogs_folder Ex.nested_tree).
  - apply below_deeper with (c := Element "body" ∅ [Ex.folder "Tech" [Ex.blogs_folder]]);
      [left; reflexivity|].
    apply below_deeper with (c := Ex.folder "Tech" [Ex.blogs_folder]); [left; reflexivity|].
    apply below_child. left. reflexivity.
  - reflexivity.
Defined.

Lemma element_size_cons t a c cs :
  element_size (Element t a (c :: cs)) =
    (element_size c + element_size (Element t a cs))%nat.
Proof. simpl. lia. Qed.

Lemma element_size_pos e : (0 < element_size e)%nat.
Proof. destruct e. simpl. lia. Qed.

Lemma below_smaller o t : below o t -> (element_size o < element_size t)%nat.
Proof.
  assert (∀ t c, In c (children t) -> (element_size c < element_size t)%nat) as Hchild.
  { intros [t' a cs] c. simpl children. induction cs as [|c' cs IH]; intros Hin.
    - destruct Hin.
    - rewrite element_size_cons. destruct Hin as [->|Hin].
      + pose proof (element_size_pos (Element t' a cs)). lia.
      + specialize (IH Hin). lia. }
  induction 1 as [t Hin|t c Hin _ IH].
  - by apply Hchild.
  - specialize (Hchild t c Hin). lia.
Qed.

(** X19: the root of the document is never among the walked nodes, even when
    it is itself tagged "outline". *)
Theorem findall_outline_excludes_root tree :
  ¬ In tree (findall_outline tree).
Proof.
  intros Hin. apply findall_outline_iff in Hin as [Hb _].
  apply below_smaller in Hb. lia.
Qed.
